(** * manage_pg_server.c: server-side SQL callbacks of the management layer

    A shallow embedding of the Postgres callbacks [sql_hosts_contains],
    [sql_next_time_ical], [sql_max_hosts], [sql_severity_matches_ov] and
    [sql_regexp], of the helpers [textndup] and [get_max_hosts], and of the
    parts of the host-list library they rely on. *)

From Stdlib Require Import ZArith Floats Ascii String Lia.
From stdpp Require Import gmap strings list pretty.

Local Open Scope string_scope.
Local Open Scope Z_scope.

(** ** Machine integers *)

(** Conversion of an integer to [int32] / [int]: the value is reduced
    modulo 2^32 into the signed range. *)
Definition sint32 (z : Z) : Z := (z + 2 ^ 31) mod 2 ^ 32 - 2 ^ 31.

Definition INT_MIN : Z := - 2 ^ 31.
Definition INT_MAX : Z := 2 ^ 31 - 1.
Definition LONG_MIN : Z := - 2 ^ 63.
Definition LONG_MAX : Z := 2 ^ 63 - 1.

Definition in_int32 (z : Z) : Prop := INT_MIN <= z <= INT_MAX.

(** ** The call boundary: arguments, results, errors *)

(** One argument slot of a call: [fcinfo->arg[n]] together with
    [fcinfo->argnull[n]].  The slot holds a value whatever the flag says. *)
Record NullableDatum (A : Type) : Type := mkArg { value : A; isnull : bool }.
Arguments mkArg {A} _ _.
Arguments value {A} _.
Arguments isnull {A} _.

(** A non-null argument and a null one (whose slot holds [junk]). *)
Definition arg_of {A} (a : A) : NullableDatum A := mkArg a false.
Definition null_arg {A} (junk : A) : NullableDatum A := mkArg junk true.

(** What a callback hands back: [PG_RETURN_NULL], [PG_RETURN_BOOL] or
    [PG_RETURN_INT32]. *)
Inductive Datum : Type :=
| DatumNull
| DatumBool (b : bool)
| DatumInt32 (i : Z).

(** A call either returns or raises (a Postgres [ERROR] unwinds through
    the callback, none of the callbacks installs a handler). *)
Inductive outcome (A : Type) : Type :=
| Returns (a : A)
| Raises.
Arguments Returns {A} _.
Arguments Raises {A}.

Definition bind {A B} (m : outcome A) (k : A -> outcome B) : outcome B :=
  match m with
  | Returns a => k a
  | Raises => Raises
  end.

Notation "'call' x <- m ;; k" := (bind m (fun x => k))
  (at level 100, x name, m at level 50, k at level 100, right associativity).

Definition PG_RETURN_BOOL (x : Z) : outcome Datum :=
  Returns (DatumBool (negb (x =? 0))).
Definition PG_RETURN_INT32 (x : Z) : outcome Datum :=
  Returns (DatumInt32 x).
Definition PG_RETURN_NULL : outcome Datum := Returns DatumNull.

(** [DatumGetInt32]: the low 32 bits of the slot. *)
Definition DatumGetInt32 (d : Z) : Z := sint32 d.

(** ** textndup *)

(** [VARSIZE (t) - VARHDRSZ]: the number of bytes of a text value. *)
Definition text_size (t : string) : nat := String.length t.

(** Copy of the first [length] bytes of a text value. *)
Definition textndup (text_arg : string) (length : nat) : string :=
  String.substring 0 length text_arg.

(** ** The C library's atoi *)

Definition isspace (c : ascii) : bool :=
  let n := N_of_ascii c in
  ((n =? 32) || ((9 <=? n) && (n <=? 13)))%N.

Definition digit_of (c : ascii) : option Z :=
  let n := Z.of_N (N_of_ascii c) in
  if (48 <=? n) && (n <=? 57) then Some (n - 48) else None.

Fixpoint skip_space (s : string) : string :=
  match s with
  | String c s' => if isspace c then skip_space s' else s
  | EmptyString => s
  end.

(** Value of the longest prefix of decimal digits, continuing [acc]. *)
Fixpoint digits_value (s : string) (acc : Z) : Z :=
  match s with
  | String c s' =>
      match digit_of c with
      | Some d => digits_value s' (10 * acc + d)
      | None => acc
      end
  | EmptyString => acc
  end.

(** [strtol (s, NULL, 10)]: blanks, an optional sign, digits; no digits
    give 0; the result saturates at the bounds of [long]. *)
Definition strtol10 (s : string) : Z :=
  match skip_space s with
  | String "-"%char s' => Z.max LONG_MIN (- digits_value s' 0)
  | String "+"%char s' => Z.min LONG_MAX (digits_value s' 0)
  | s' => Z.min LONG_MAX (digits_value s' 0)
  end.

(** [atoi (s)] is [(int) strtol (s, NULL, 10)]. *)
Definition atoi (s : string) : Z := sint32 (strtol10 s).

Definition is_digit (c : ascii) : bool :=
  match digit_of c with Some _ => true | None => false end.

(** A text that holds no number: after the blanks and an optional sign
    there is no digit. *)
Definition no_numeral (s : string) : bool :=
  match skip_space s with
  | String c s' =>
      if Ascii.eqb c "-" || Ascii.eqb c "+" then
        match s' with
        | String d _ => negb (is_digit d)
        | EmptyString => true
        end
      else negb (is_digit c)
  | EmptyString => true
  end.

(** ** get_max_hosts *)

(** What the server programming interface leaves behind after [SPI_exec]:
    the return code, [SPI_processed] and [SPI_tuptable] (the rows, each a
    list of columns as [SPI_getvalue] renders them, [None] for a null). *)
Record SPI_result : Type := mkSPI {
  SPI_ret : Z;
  SPI_processed : Z;
  SPI_tuptable : option (list (list (option string)))
}.

Definition SPI_OK_SELECT : Z := 5.

(** [SPI_getvalue (SPI_tuptable->vals[row], SPI_tuptable->tupdesc, col)],
    columns numbered from 1. *)
Definition SPI_getvalue (rows : list (list (option string)))
    (row : nat) (col : nat) : option string :=
  match rows !! row with
  | Some r => mjoin (r !! pred col)
  | None => None
  end.

(** The query of [get_max_hosts] on the settings table [meta]
    (name, value; names are unique, a value may be null):
    [SELECT coalesce ((SELECT value FROM meta WHERE name = 'max_hosts'),
    '4095')], at most one row asked for. *)
Definition SPI_exec_max_hosts (meta : gmap string (option string))
    : SPI_result :=
  mkSPI SPI_OK_SELECT 1
        (Some [[Some (default "4095" (mjoin (meta !! "max_hosts")))]]).

(** The maximum number of hosts: 4095 unless the query gave a row with a
    cell, which is then read with [atoi]. *)
Definition get_max_hosts (spi : SPI_result) : Z :=
  let max_hosts := 4095 in
  if (0 <? SPI_processed spi) && (0 <? SPI_ret spi) then
    match SPI_tuptable spi with
    | Some rows =>
        match SPI_getvalue rows 0 1 with
        | Some cell => atoi cell
        | None => max_hosts
        end
    | None => max_hosts
    end
  else max_hosts.

(** ** The callbacks *)

Section Callbacks.

(** The functions of manage_utils.h and of GLib the callbacks call.
    Those of manage_utils may raise; GLib's matcher answers yes or no. *)
Variable hosts_str_contains : string -> string -> Z -> outcome Z.
Variable manage_count_hosts_max : string -> string -> Z -> outcome Z.
Variable icalendar_next_time_from_string :
  string -> option string -> Z -> outcome Z.
Variable g_regex_match_simple : string -> string -> bool.

(** Whether the host list of argument 0 contains the host of argument 1.
    [spi] is what the settings query of [get_max_hosts] yields. *)
Definition sql_hosts_contains (spi : SPI_result)
    (arg0 arg1 : NullableDatum string) : outcome Datum :=
  if isnull arg0 || isnull arg1 then PG_RETURN_BOOL 0
  else
    let hosts_arg := value arg0 in
    let hosts := textndup hosts_arg (text_size hosts_arg) in
    let find_host_arg := value arg1 in
    let find_host := textndup find_host_arg (text_size find_host_arg) in
    let max_hosts := get_max_hosts spi in
    call r <- hosts_str_contains hosts find_host max_hosts ;;
    let ret := if r =? 0 then 0 else 1 in
    PG_RETURN_BOOL ret.

(** The next time of a schedule.  [nargs] is [PG_NARGS ()]; the offset is
    [PG_GETARG_INT32 (2)], read without a test of the number of arguments
    or of the null flag. *)
Definition sql_next_time_ical (nargs : Z)
    (arg0 arg1 : NullableDatum string) (arg2 : NullableDatum Z)
    : outcome Datum :=
  if (nargs <? 1) || isnull arg0 then PG_RETURN_NULL
  else
    let ical_string_arg := value arg0 in
    let ical_string := textndup ical_string_arg (text_size ical_string_arg) in
    let zone :=
      if (nargs <? 2) || isnull arg1 then None
      else
        let timezone_arg := value arg1 in
        Some (textndup timezone_arg (text_size timezone_arg)) in
    let periods_offset := DatumGetInt32 (value arg2) in
    call t <- icalendar_next_time_from_string ical_string zone
                periods_offset ;;
    let ret := sint32 t in
    PG_RETURN_INT32 ret.

(** The number of hosts of argument 0 outside the list of argument 1. *)
Definition sql_max_hosts (spi : SPI_result)
    (arg0 arg1 : NullableDatum string) : outcome Datum :=
  if isnull arg0 then PG_RETURN_INT32 0
  else
    let hosts_arg := value arg0 in
    let hosts := textndup hosts_arg (text_size hosts_arg) in
    let exclude :=
      if isnull arg1 then ""
      else
        let exclude_arg := value arg1 in
        textndup exclude_arg (text_size exclude_arg) in
    let max_hosts := get_max_hosts spi in
    call ret <- manage_count_hosts_max hosts exclude max_hosts ;;
    PG_RETURN_INT32 ret.

(** Whether the severity of argument 0 matches the override severity of
    argument 1; both are [float8]. *)
Definition sql_severity_matches_ov (arg0 arg1 : NullableDatum float)
    : outcome Datum :=
  if isnull arg0 then PG_RETURN_BOOL 0
  else if isnull arg1 then PG_RETURN_BOOL 1
  else
    let arg_one := value arg0 in
    let arg_two := value arg1 in
    if PrimFloat.leb arg_one 0%float
    then PG_RETURN_BOOL (Z.b2z (PrimFloat.eqb arg_one arg_two))
    else PG_RETURN_BOOL (Z.b2z (PrimFloat.leb arg_two arg_one)).

(** Whether argument 0 matches the regular expression of argument 1. *)
Definition sql_regexp (arg0 arg1 : NullableDatum string) : outcome Datum :=
  if isnull arg0 || isnull arg1 then PG_RETURN_BOOL 0
  else
    let regexp_arg := value arg1 in
    let regexp := textndup regexp_arg (text_size regexp_arg) in
    let string_arg := value arg0 in
    let string := textndup string_arg (text_size string_arg) in
    let ret := if g_regex_match_simple regexp string then 1 else 0 in
    PG_RETURN_BOOL ret.

End Callbacks.

(** ** Host expressions and the capped host count *)

(** Modelled from the spec: manage_utils.c, which defines
    [manage_count_hosts_max], is not among the sources.  The definitions of
    this part follow sections 3, 4.1, 4.2 and 7 of the specification: the
    host atoms, containment by range arithmetic, and the count that walks
    the atoms in parse order, address by address, with a deduplication set
    and stops when the running count reaches the cap. *)
Inductive Host : Type :=
| HostAddress (a : Z)
| HostName (n : string).

#[global] Instance Host_eq_dec : EqDecision Host.
Proof. solve_decision. Defined.

#[global] Instance Host_countable : Countable Host.
Proof.
  refine (inj_countable'
            (fun h => match h with
                      | HostAddress a => inl a
                      | HostName n => inr n
                      end)
            (fun s => match s with
                      | inl a => HostAddress a
                      | inr n => HostName n
                      end) _).
  intros []; reflexivity.
Defined.

(** Modelled from the spec: the host atoms of section 3. Addresses are
    numbers; a prefix length counts the fixed leading bits of 32. *)
Inductive HostAtom : Type :=
| AtomAddress (a : Z)
| AtomHostname (n : string)
| AtomCidr (a : Z) (prefix : Z)
| AtomRange (first last : Z)
| AtomShortRange (base : Z) (last_octet : Z).

(** Modelled from the spec: the first and last address an atom denotes;
    a short range replaces the last component of its base address. *)
Definition atom_bounds (atom : HostAtom) : option (Z * Z) :=
  match atom with
  | AtomAddress a => Some (a, a)
  | AtomHostname _ => None
  | AtomCidr a prefix =>
      let block := 2 ^ (32 - prefix) in
      let first := a - a mod block in
      Some (first, first + block - 1)
  | AtomRange first last => Some (first, last)
  | AtomShortRange base last_octet =>
      Some (base, base - base mod 256 + last_octet)
  end.

(** Modelled from the spec: membership by arithmetic (address comparison
    for ranges and blocks, string equality for hostnames). *)
Definition atom_contains (h : Host) (atom : HostAtom) : bool :=
  match atom_bounds atom, atom, h with
  | Some (first, last), _, HostAddress x => (first <=? x) && (x <=? last)
  | None, AtomHostname n, HostName m => String.eqb n m
  | _, _, _ => false
  end.

(** Modelled from the spec: containment in an expression, atom by atom,
    true at the first atom that has the host. *)
Definition expression_contains (h : Host) (atoms : list HostAtom) : bool :=
  existsb (atom_contains h) atoms.

(** Modelled from the spec: the running state of a count, the
    deduplication set and the number of distinct hosts counted so far. *)
Record CountState : Type := mkCount {
  seen : gset Host;
  counted : Z
}.

Section Count.

Variable max_hosts : Z.
Variable exclude : list HostAtom.

(** Modelled from the spec: one enumerated host.  Nothing is counted
    once the cap is reached; excluded hosts and hosts already seen are
    skipped. *)
Definition visit (h : Host) (st : CountState) : CountState :=
  if max_hosts <=? counted st then st
  else if expression_contains h exclude then st
  else if bool_decide (h ∈ seen st) then st
  else mkCount ({[h]} ∪ seen st) (counted st + 1).

(** Modelled from the spec: the addresses [a], [a + 1], ... ([n] of
    them) in order; the walk is left as soon as the cap is reached, so
    a wide block costs no more than the cap allows. *)
Fixpoint scan_range (n : positive) (a : Z) (st : CountState)
    : CountState :=
  if max_hosts <=? counted st then st
  else
    match n with
    | xH => visit (HostAddress a) st
    | xO p => scan_range p (a + Z.pos p) (scan_range p a st)
    | xI p =>
        visit (HostAddress (a + Z.pos p~0))
              (scan_range p (a + Z.pos p) (scan_range p a st))
    end.

(** Modelled from the spec: one atom, a hostname as a single host, any
    other atom as the addresses between its bounds. *)
Definition scan_atom (atom : HostAtom) (st : CountState) : CountState :=
  match atom_bounds atom, atom with
  | Some (first, last), _ =>
      if last <? first then st
      else scan_range (Z.to_pos (last - first + 1)) first st
  | None, AtomHostname n => visit (HostName n) st
  | None, _ => st
  end.

(** Modelled from the spec: the atoms in parse order. *)
Fixpoint scan_atoms (atoms : list HostAtom) (st : CountState)
    : CountState :=
  match atoms with
  | [] => st
  | atom :: rest =>
      if max_hosts <=? counted st then st
      else scan_atoms rest (scan_atom atom st)
  end.

End Count.

(** Modelled from the spec: the count of section 4.2 on parsed
    expressions. *)
Definition count_hosts (max_hosts : Z) (atoms exclude : list HostAtom) : Z :=
  counted (scan_atoms max_hosts exclude atoms (mkCount ∅ 0)).

(** Modelled from the spec: [manage_count_hosts_max] over a parser of host
    expressions.  A negative cap is a contract violation and fails; a
    malformed expression degrades to the zero count (section 7). *)
Definition manage_count_hosts_max
    (parse : string -> option (list HostAtom))
    (given_hosts exclude_hosts : string) (max_hosts : Z) : outcome Z :=
  if max_hosts <? 0 then Raises
  else
    match parse given_hosts, parse exclude_hosts with
    | Some atoms, Some exclude => Returns (count_hosts max_hosts atoms exclude)
    | _, _ => Returns 0
    end.

(** Modelled from the spec: the Host Expression Parser of section 4.1,
    for the IPv4 notations.  An expression is split on commas and each
    token trimmed; a token with a slash is a block, a token with a dash a
    range (full when the part after the dash is an address, short when it
    is a single number), any other token a literal address or, when it is
    not made of digits and dots only, a hostname. *)
Fixpoint split_on (sep : ascii) (s : string) : list string :=
  match s with
  | EmptyString => [EmptyString]
  | String c s' =>
      if Ascii.eqb c sep then EmptyString :: split_on sep s'
      else
        match split_on sep s' with
        | tok :: toks => String c tok :: toks
        | [] => [String c EmptyString]
        end
  end.

(** Modelled from the spec: trimming of the blanks around a token. *)
Fixpoint drop_space (l : list ascii) : list ascii :=
  match l with
  | c :: l' => if isspace c then drop_space l' else l
  | [] => []
  end.

(** Modelled from the spec: a token without the blanks around it. *)
Definition trim (s : string) : string :=
  string_of_list_ascii
    (rev (drop_space (rev (drop_space (list_ascii_of_string s))))).

(** Modelled from the spec: presence of a character, by which a token
    is classified. *)
Definition has_char (c : ascii) (s : string) : bool :=
  existsb (Ascii.eqb c) (list_ascii_of_string s).

(** Modelled from the spec: a number is a non-empty run of decimal
    digits; anything else is a numeric parsing failure. *)
Definition parse_number (s : string) : option Z :=
  match s with
  | EmptyString => None
  | _ =>
      if forallb is_digit (list_ascii_of_string s)
      then Some (digits_value s 0) else None
  end.

(** Modelled from the spec: one component of an address, at most 255. *)
Definition parse_octet (s : string) : option Z :=
  match parse_number s with
  | Some n => if n <=? 255 then Some n else None
  | None => None
  end.

(** Modelled from the spec: a dotted address of four components, as a
    number. *)
Definition parse_address (s : string) : option Z :=
  match split_on "." s with
  | [a; b; c; d] =>
      match parse_octet a, parse_octet b, parse_octet c, parse_octet d with
      | Some a, Some b, Some c, Some d =>
          Some (((a * 256 + b) * 256 + c) * 256 + d)
      | _, _, _, _ => None
      end
  | _ => None
  end.

(** Modelled from the spec: one token.  A prefix length over 32, a range
    whose end precedes its start and a failed number are rejected. *)
Definition parse_atom (token : string) : option HostAtom :=
  if has_char "/" token then
    match split_on "/" token with
    | [address; prefix] =>
        match parse_address address, parse_number prefix with
        | Some a, Some p => if p <=? 32 then Some (AtomCidr a p) else None
        | _, _ => None
        end
    | _ => None
    end
  else if has_char "-" token then
    match split_on "-" token with
    | [first; last] =>
        match parse_address first, parse_address last, parse_octet last with
        | Some a, Some b, _ =>
            if b <? a then None else Some (AtomRange a b)
        | Some a, None, Some z =>
            if a - a mod 256 + z <? a then None
            else Some (AtomShortRange a z)
        | _, _, _ => None
        end
    | _ => None
    end
  else
    match parse_address token with
    | Some a => Some (AtomAddress a)
    | None =>
        if forallb (fun c => is_digit c || Ascii.eqb c ".")
                   (list_ascii_of_string token)
        then None
        else Some (AtomHostname token)
    end.

(** Modelled from the spec: a whole expression; the empty expression has
    no atoms, a malformed token fails the expression. *)
Definition parse_hosts (expression : string) : option (list HostAtom) :=
  match trim expression with
  | EmptyString => Some []
  | _ => mapM parse_atom (trim <$> split_on "," expression)
  end.

(** The hosts an atom denotes, written out in order, and the true number
    of distinct hosts of an expression outside the exclude list: the
    reference the count is compared with. *)
Definition atom_hosts (atom : HostAtom) : list Host :=
  match atom_bounds atom, atom with
  | Some (first, last), _ => HostAddress <$> seqZ first (last - first + 1)
  | None, AtomHostname n => [HostName n]
  | None, _ => []
  end.

Definition expression_hosts (atoms : list HostAtom) : list Host :=
  atoms ≫= atom_hosts.

Definition distinct_count (atoms exclude : list HostAtom) : Z :=
  Z.of_nat
    (length (remove_dups
               (filter (fun h => h ∉ expression_hosts exclude)
                       (expression_hosts atoms)))).

(** ** Notions the statements use *)

(** The running count is the size of the deduplication set and stays
    under the cap. *)
Definition count_inv (max_hosts : Z) (st : CountState) : Prop :=
  counted st = Z.of_nat (size (seen st)) ∧ counted st <= max_hosts.

(** The time zone [sql_next_time_ical] hands to the scheduler. *)
Definition zone_of (nargs : Z) (arg1 : NullableDatum string)
    : option string :=
  if (nargs <? 2) || isnull arg1 then None else Some (value arg1).

(** Whether a text starts with a decimal digit. *)
Definition leading_digit (s : string) : bool :=
  match s with
  | String c _ => is_digit c
  | EmptyString => false
  end.

(** Whether a text is made of blanks only. *)
Definition all_blank (s : string) : bool :=
  forallb isspace (list_ascii_of_string s).

(** A number brought into the range of [long], as [strtol] does. *)
Definition clamp_long (n : Z) : Z := Z.max LONG_MIN (Z.min LONG_MAX n).

(** * Properties *)

(** ** The host count against the true distinct count *)

Section CountFacts.

Variable max_hosts : Z.
Variable exclude : list HostAtom.

Abbreviation visit_all := (foldl (fun st h => visit max_hosts exclude h st)).

Lemma visit_full h st : max_hosts <= counted st -> visit max_hosts exclude h st = st.
Proof. intros Hfull. unfold visit. by rewrite (proj2 (Z.leb_le _ _) Hfull). Qed.

Lemma visit_all_full l st : max_hosts <= counted st -> visit_all st l = st.
Proof.
  induction l as [|h l IH]; intros Hfull; simpl; [done|].
  rewrite visit_full by done. by apply IH.
Qed.

Lemma scan_range_visit_all n a st :
  scan_range max_hosts exclude n a st
  = visit_all st (HostAddress <$> seqZ a (Z.pos n)).
Proof.
  revert a st. induction n as [p IH|p IH|]; intros a st; cbn [scan_range].
  - destruct (Z.leb_spec max_hosts (counted st)) as [Hfull|Hroom].
    { by rewrite visit_all_full. }
    rewrite !IH.
    replace (Z.pos p~1) with (Z.pos p + (Z.pos p + 1)) by lia.
    rewrite seqZ_app, fmap_app, foldl_app by lia.
    rewrite seqZ_app, fmap_app, foldl_app by lia.
    replace (a + Z.pos p + Z.pos p) with (a + Z.pos p~0) by lia.
    reflexivity.
  - destruct (Z.leb_spec max_hosts (counted st)) as [Hfull|Hroom].
    { by rewrite visit_all_full. }
    rewrite !IH.
    replace (Z.pos p~0) with (Z.pos p + Z.pos p) by lia.
    by rewrite seqZ_app, fmap_app, foldl_app by lia.
  - destruct (Z.leb_spec max_hosts (counted st)) as [Hfull|Hroom].
    { by rewrite visit_all_full. }
    reflexivity.
Qed.

Lemma scan_atom_visit_all atom st :
  scan_atom max_hosts exclude atom st = visit_all st (atom_hosts atom).
Proof.
  unfold scan_atom, atom_hosts.
  destruct (atom_bounds atom) as [[first last]|] eqn:Hb.
  - destruct (Z.ltb_spec last first) as [Hlt|Hge].
    + by rewrite seqZ_nil by lia.
    + rewrite scan_range_visit_all. by rewrite Z2Pos.id by lia.
  - by destruct atom.
Qed.

Lemma scan_atoms_visit_all atoms st :
  scan_atoms max_hosts exclude atoms st
  = visit_all st (expression_hosts atoms).
Proof.
  unfold expression_hosts.
  revert st. induction atoms as [|atom rest IH]; intros st; [done|].
  cbn [scan_atoms]. rewrite bind_cons, foldl_app.
  destruct (Z.leb_spec max_hosts (counted st)) as [Hfull|Hroom].
  - rewrite (visit_all_full (atom_hosts atom)) by done.
    by rewrite visit_all_full.
  - by rewrite IH, scan_atom_visit_all.
Qed.

End CountFacts.

(** Arithmetic containment agrees with membership in the written-out
    hosts. *)
Lemma atom_contains_hosts h atom :
  atom_contains h atom = true ↔ h ∈ atom_hosts atom.
Proof.
  unfold atom_contains, atom_hosts.
  destruct (atom_bounds atom) as [[first last]|] eqn:Hb.
  - destruct h as [x|m].
    + rewrite andb_true_iff, Z.leb_le, Z.leb_le, list_elem_of_fmap.
      split.
      * intros [Hlo Hhi]. exists x. split; [done|].
        apply elem_of_seqZ. lia.
      * intros (y & [= ->] & Hin).
        apply elem_of_seqZ in Hin. lia.
    + rewrite list_elem_of_fmap. split; [by destruct atom|].
      by intros (y & Hy & _).
  - destruct atom; try discriminate Hb.
    destruct h as [x|m].
    + split; [done|]. by intros ?%list_elem_of_singleton.
    + rewrite String.eqb_eq, list_elem_of_singleton.
      split; [by intros ->|by intros [= ->]].
Qed.

Lemma expression_contains_hosts h atoms :
  expression_contains h atoms = true ↔ h ∈ expression_hosts atoms.
Proof.
  unfold expression_contains, expression_hosts.
  rewrite existsb_exists, list_elem_of_bind.
  split.
  - intros (atom & Hin & Hc). exists atom.
    split; [by apply atom_contains_hosts|by apply list_elem_of_In].
  - intros (atom & Hh & Hin). exists atom.
    split; [by apply list_elem_of_In|by apply atom_contains_hosts].
Qed.

Section CountResult.

Variable max_hosts : Z.
Variable exclude : list HostAtom.

Abbreviation admitted_hosts :=
  (filter (fun h => h ∉ expression_hosts exclude)).

(** Folding [visit] over a list of hosts counts, up to the cap, the
    hosts of the list outside the exclude list that were not seen yet. *)
Lemma visit_all_counted l st :
  count_inv max_hosts st ->
  counted (foldl (fun st h => visit max_hosts exclude h st) st l)
  = Z.min max_hosts
      (Z.of_nat (size (seen st ∪ list_to_set (admitted_hosts l)))).
Proof.
  revert st. induction l as [|h l IH]; intros st [Hsize Hcap].
  - cbn [foldl]. rewrite filter_nil, list_to_set_nil, (right_id_L ∅ (∪)).
    lia.
  - cbn [foldl]. unfold visit at 2.
    destruct (Z.leb_spec max_hosts (counted st)) as [Hfull|Hroom].
    { rewrite IH by done.
      assert (size (seen st)
              ≤ size (seen st ∪ list_to_set (admitted_hosts l)))%nat
        by apply subseteq_size, union_subseteq_l.
      assert (size (seen st)
              ≤ size (seen st ∪ list_to_set (admitted_hosts (h :: l))))%nat
        by apply subseteq_size, union_subseteq_l.
      lia. }
    destruct (expression_contains h exclude) eqn:Hex.
    { rewrite IH by done.
      apply expression_contains_hosts in Hex.
      by rewrite filter_cons_False by (intros Hn; by apply Hn). }
    assert (h ∉ expression_hosts exclude) as Hout.
    { intros Hin%expression_contains_hosts. congruence. }
    rewrite filter_cons_True, list_to_set_cons by done.
    case_bool_decide as Hseen.
    { rewrite IH by done. do 3 f_equal.
      apply set_eq. intros x. rewrite !elem_of_union, elem_of_singleton.
      intuition (subst; auto). }
    rewrite IH.
    + cbn [seen]. do 3 f_equal.
      apply set_eq. intros x. rewrite !elem_of_union, elem_of_singleton.
      intuition (subst; auto).
    + split; cbn [seen counted]; [|lia].
      rewrite size_union, size_singleton
        by (apply disjoint_singleton_l; done). lia.
Qed.

(** On parsed expressions the count is the smaller of the cap and the
    true number of distinct hosts outside the exclude list. *)
Lemma count_hosts_min atoms :
  0 <= max_hosts ->
  count_hosts max_hosts atoms exclude
  = Z.min max_hosts (distinct_count atoms exclude).
Proof.
  intros Hcap. unfold count_hosts, distinct_count.
  rewrite scan_atoms_visit_all, visit_all_counted.
  - cbn [seen]. rewrite (left_id_L ∅ (∪)).
    rewrite <- (size_list_to_set (C:=gset Host) (remove_dups _))
      by apply NoDup_remove_dups.
    do 3 f_equal. apply set_eq. intros h.
    by rewrite !elem_of_list_to_set, elem_of_remove_dups.
  - split; cbn [seen counted]; [by rewrite size_empty|done].
Qed.

End CountResult.

(** ** Facts about the helpers *)

Lemma textndup_whole t : textndup t (text_size t) = t.
Proof.
  unfold textndup, text_size.
  induction t as [|c t IH]; [done|]. cbn. by rewrite IH.
Qed.

Lemma PG_RETURN_BOOL_b2z b : PG_RETURN_BOOL (Z.b2z b) = Returns (DatumBool b).
Proof. by destruct b. Qed.

Lemma sint32_in_range z : in_int32 (sint32 z).
Proof.
  unfold in_int32, sint32, INT_MIN, INT_MAX.
  pose proof (Z.mod_pos_bound (z + 2 ^ 31) (2 ^ 32)). lia.
Qed.

Lemma sint32_id z : in_int32 z -> sint32 z = z.
Proof.
  unfold in_int32, sint32, INT_MIN, INT_MAX. intros Hz.
  rewrite Z.mod_small by lia. lia.
Qed.

Lemma sint32_congruent z : (sint32 z - z) mod 2 ^ 32 = 0.
Proof.
  unfold sint32.
  set (w := z + 2 ^ 31).
  replace (w mod 2 ^ 32 - 2 ^ 31 - z) with (w mod 2 ^ 32 - w) by (unfold w; lia).
  rewrite (Z.mod_eq w) by lia.
  replace (w - 2 ^ 32 * (w `div` 2 ^ 32) - w)
    with (- (w `div` 2 ^ 32) * 2 ^ 32) by lia.
  apply Z.mod_mul. lia.
Qed.

Lemma digit_of_pretty_N_char d :
  (d < 10)%N -> digit_of (pretty_N_char d) = Some (Z.of_N d).
Proof.
  intros Hd. destruct d as [|p]; [reflexivity|].
  do 4 (try destruct p as [p|p|]); try reflexivity; lia.
Qed.

Lemma is_digit_pretty_N_char d : is_digit (pretty_N_char d) = true.
Proof.
  destruct d as [|p]; [reflexivity|].
  do 4 (try destruct p as [p|p|]); reflexivity.
Qed.

(** Reading back the digits the printer puts in front of [s]. *)
Lemma digits_value_pretty_N_go x s :
  digits_value (pretty_N_go x s) 0 = digits_value s (Z.of_N x).
Proof.
  revert s. induction (N.lt_wf_0 x) as [x _ IH]; intros s.
  destruct (decide (x = 0%N)) as [->|Hx]; [done|].
  rewrite pretty_N_go_step by lia.
  rewrite IH by (apply N.div_lt; lia).
  cbn [digits_value].
  rewrite digit_of_pretty_N_char by (apply N.mod_lt; lia).
  f_equal. rewrite N2Z.inj_div, N2Z.inj_mod.
  change (Z.of_N 10) with 10.
  pose proof (Z.div_mod (Z.of_N x) 10). lia.
Qed.

Lemma pretty_N_go_head x s :
  (0 < x)%N ->
  ∃ c s', pretty_N_go x s = String c s' ∧ is_digit c = true.
Proof.
  revert s. induction (N.lt_wf_0 x) as [x _ IH]; intros s Hx.
  rewrite pretty_N_go_step by done.
  destruct (decide (x `div` 10 = 0)%N) as [->|Hq].
  - eexists _, _. split; [done|]. apply is_digit_pretty_N_char.
  - apply IH; [apply N.div_lt; lia|].
    destruct (x `div` 10)%N; [done|lia].
Qed.

Lemma strtol10_digit c s :
  is_digit c = true ->
  strtol10 (String c s) = Z.min LONG_MAX (digits_value (String c s) 0).
Proof.
  destruct c as [[] [] [] [] [] [] [] []]; try discriminate; reflexivity.
Qed.

(** [atoi] reads back the decimal rendering of every [int]. *)
Lemma atoi_pretty n : in_int32 n -> atoi (pretty n) = n.
Proof.
  unfold in_int32, INT_MIN, INT_MAX. intros Hn. unfold atoi.
  destruct n as [|p|p].
  - reflexivity.
  - change (pretty (Z.pos p)) with (pretty_N_go (N.pos p) "").
    destruct (pretty_N_go_head (N.pos p) "") as (c & s' & Hs & Hc); [lia|].
    rewrite Hs, strtol10_digit, <- Hs, digits_value_pretty_N_go by done.
    cbn [digits_value]. unfold LONG_MAX.
    rewrite Z.min_r by (change (Z.of_N (N.pos p)) with (Z.pos p); lia).
    apply sint32_id. unfold in_int32, INT_MIN, INT_MAX.
    change (Z.of_N (N.pos p)) with (Z.pos p). lia.
  - change (pretty (Z.neg p)) with (String "-" (pretty_N_go (N.pos p) "")).
    change (strtol10 (String "-" (pretty_N_go (N.pos p) "")))
      with (Z.max LONG_MIN (- digits_value (pretty_N_go (N.pos p) "") 0)).
    rewrite digits_value_pretty_N_go. cbn [digits_value]. unfold LONG_MIN.
    change (Z.of_N (N.pos p)) with (Z.pos p).
    rewrite Z.max_r by lia.
    apply sint32_id. unfold in_int32, INT_MIN, INT_MAX. lia.
Qed.

(** A text that holds no number reads as 0. *)
Lemma atoi_no_numeral s : no_numeral s = true -> atoi s = 0.
Proof.
  unfold atoi, strtol10, no_numeral.
  destruct (skip_space s) as [|c s']; [done|].
  destruct c as [[] [] [] [] [] [] [] []]; cbn [Ascii.eqb Bool.eqb orb];
    try discriminate; try reflexivity.
  all: destruct s' as [|d s'']; [reflexivity|].
  all: unfold is_digit; cbn [digits_value].
  all: destruct (digit_of d); [discriminate|reflexivity].
Qed.

(** ** The severity threshold predicate *)

(** C1 (as stated, refuted): the branch is not taken on the threshold.
    With value 5 and threshold -1 the threshold is non-positive and the
    two differ, yet the predicate holds; with threshold 0 the predicate
    holds for the value 5, which is not 0. *)
Lemma severity_branch_on_threshold_fails :
  ¬ (∀ v t : float,
       PrimFloat.leb t 0 = true ->
       sql_severity_matches_ov (arg_of v) (arg_of t)
       = Returns (DatumBool (PrimFloat.eqb v t))).
Proof.
  intros Hclaim. specialize (Hclaim 5%float (-1)%float eq_refl).
  vm_compute in Hclaim. discriminate Hclaim.
Qed.

(** C1 (amended): with both arguments present the branch is taken on the
    value.  A non-positive value matches exactly when it equals the
    threshold, any other value exactly when it is at least the threshold;
    so against threshold 0 the predicate holds iff the value is at least
    0, and value 5 against threshold -1 matches. *)
Theorem severity_matches_branch_on_value (v t : float) :
  (PrimFloat.leb v 0 = true ->
   sql_severity_matches_ov (arg_of v) (arg_of t)
   = Returns (DatumBool (PrimFloat.eqb v t)))
  ∧ (PrimFloat.leb v 0 = false ->
     sql_severity_matches_ov (arg_of v) (arg_of t)
     = Returns (DatumBool (PrimFloat.leb t v)))
  ∧ sql_severity_matches_ov (arg_of v) (arg_of 0%float)
    = Returns (DatumBool (PrimFloat.leb 0 v))
  ∧ sql_severity_matches_ov (arg_of 5%float) (arg_of (-1)%float)
    = Returns (DatumBool true).
Proof.
  unfold sql_severity_matches_ov, arg_of. cbn [isnull value].
  rewrite !PG_RETURN_BOOL_b2z.
  split; [by intros ->|]. split; [by intros ->|]. split; [|reflexivity].
  rewrite !FloatAxioms.leb_spec, FloatAxioms.eqb_spec.
  change (Prim2SF 0) with (S754_zero false).
  destruct (Prim2SF v) as [s|s| |s m e]; try destruct s; reflexivity.
Qed.

Lemma severity_matches_branch_on_value_witness :
  PrimFloat.leb (-2) 0 = true
  ∧ sql_severity_matches_ov (arg_of (-2)%float) (arg_of (-2)%float)
    = Returns (DatumBool (PrimFloat.eqb (-2) (-2)))
  ∧ PrimFloat.leb 7 0 = false
  ∧ sql_severity_matches_ov (arg_of 7%float) (arg_of 4%float)
    = Returns (DatumBool (PrimFloat.leb 4 7)).
Proof.
  split; [reflexivity|]. split.
  { apply (proj1 (severity_matches_branch_on_value (-2) (-2))). reflexivity. }
  split; [reflexivity|].
  apply (proj1 (proj2 (severity_matches_branch_on_value 7 4))). reflexivity.
Defined.

(** C8: an absent value gives false whatever the threshold slot holds,
    and a present value with an absent threshold gives true. *)
Theorem severity_matches_null_arguments :
  (∀ (junk : float) (threshold : NullableDatum float),
     sql_severity_matches_ov (null_arg junk) threshold
     = Returns (DatumBool false))
  ∧ (∀ v junk : float,
       sql_severity_matches_ov (arg_of v) (null_arg junk)
       = Returns (DatumBool true)).
Proof. split; reflexivity. Qed.

(** ** The regular expression predicate *)

(** C9: a null argument gives false; otherwise the result is what the
    matcher says of the first argument as subject and the second argument
    as pattern. *)
Theorem sql_regexp_matches (g_regex_match_simple : string -> string -> bool) :
  (∀ junk (pattern : NullableDatum string),
     sql_regexp g_regex_match_simple (null_arg junk) pattern
     = Returns (DatumBool false))
  ∧ (∀ (subject : NullableDatum string) junk,
       sql_regexp g_regex_match_simple subject (null_arg junk)
       = Returns (DatumBool false))
  ∧ (∀ subject pattern : string,
       sql_regexp g_regex_match_simple (arg_of subject) (arg_of pattern)
       = Returns (DatumBool (g_regex_match_simple pattern subject))).
Proof.
  split; [reflexivity|]. split.
  - intros subject junk. unfold sql_regexp. cbn [null_arg isnull].
    by rewrite orb_true_r.
  - intros subject pattern. unfold sql_regexp, arg_of. cbn [isnull value orb].
    rewrite !textndup_whole.
    by destruct (g_regex_match_simple pattern subject).
Qed.

(** ** Host containment *)

(** C5: with a null expression or a null candidate the result is false
    and the call returns, whatever [hosts_str_contains] would do. *)
Theorem sql_hosts_contains_null
    (hosts_str_contains : string -> string -> Z -> outcome Z)
    (spi : SPI_result) :
  (∀ junk (candidate : NullableDatum string),
     sql_hosts_contains hosts_str_contains spi (null_arg junk) candidate
     = Returns (DatumBool false))
  ∧ (∀ (expression : NullableDatum string) junk,
       sql_hosts_contains hosts_str_contains spi expression (null_arg junk)
       = Returns (DatumBool false)).
Proof.
  split; [reflexivity|].
  intros expression junk. unfold sql_hosts_contains. cbn [null_arg isnull].
  by rewrite orb_true_r.
Qed.

(** ** The cap read from the settings *)

(** C3 (as stated, refuted): a stored value that is not a number does not
    give 4095. *)
Lemma get_max_hosts_non_numeric_not_default :
  get_max_hosts (SPI_exec_max_hosts {[ "max_hosts" := Some "abc" ]}) ≠ 4095.
Proof. vm_compute. discriminate. Qed.

(** C3 (amended): the cap is 4095 when the settings hold no value for
    max_hosts; otherwise it is the stored text as [atoi] reads it, which
    is the number itself for the decimal rendering of an [int] and 0 for a
    text that holds no number. *)
Theorem get_max_hosts_from_settings (meta : gmap string (option string)) :
  (mjoin (meta !! "max_hosts") = None ->
   get_max_hosts (SPI_exec_max_hosts meta) = 4095)
  ∧ (∀ v, meta !! "max_hosts" = Some (Some v) ->
          get_max_hosts (SPI_exec_max_hosts meta) = atoi v)
  ∧ (∀ n, in_int32 n -> meta !! "max_hosts" = Some (Some (pretty n)) ->
          get_max_hosts (SPI_exec_max_hosts meta) = n)
  ∧ (∀ v, meta !! "max_hosts" = Some (Some v) -> no_numeral v = true ->
          get_max_hosts (SPI_exec_max_hosts meta) = 0).
Proof.
  assert (∀ v, meta !! "max_hosts" = Some (Some v) ->
               get_max_hosts (SPI_exec_max_hosts meta) = atoi v) as Hstored.
  { intros v Hv. unfold get_max_hosts, SPI_exec_max_hosts.
    cbn [SPI_processed SPI_ret SPI_tuptable]. by rewrite Hv. }
  split; [|split; [done|split]].
  - intros Habsent. unfold get_max_hosts, SPI_exec_max_hosts.
    cbn [SPI_processed SPI_ret SPI_tuptable]. by rewrite Habsent.
  - intros n Hn Hv. rewrite (Hstored _ Hv). by apply atoi_pretty.
  - intros v Hv Hnone. rewrite (Hstored _ Hv). by apply atoi_no_numeral.
Qed.

Lemma get_max_hosts_from_settings_witness :
  mjoin ((∅ : gmap string (option string)) !! "max_hosts") = None
  ∧ get_max_hosts (SPI_exec_max_hosts ∅) = 4095
  ∧ in_int32 250
  ∧ ({[ "max_hosts" := Some "250" ]} : gmap string (option string))
      !! "max_hosts" = Some (Some (pretty 250))
  ∧ get_max_hosts (SPI_exec_max_hosts {[ "max_hosts" := Some "250" ]}) = 250.
Proof.
  split; [reflexivity|]. split.
  { apply (proj1 (get_max_hosts_from_settings ∅)). reflexivity. }
  split; [unfold in_int32, INT_MIN, INT_MAX; lia|].
  split; [reflexivity|].
  apply (proj1 (proj2 (proj2
           (get_max_hosts_from_settings {[ "max_hosts" := Some "250" ]})))).
  - unfold in_int32, INT_MIN, INT_MAX. lia.
  - reflexivity.
Defined.

(** ** The host count callback *)

(** C6: a null expression gives 0, and a null exclude argument gives
    what the empty exclude text gives. *)
Theorem sql_max_hosts_null_arguments
    (manage_count_hosts_max : string -> string -> Z -> outcome Z)
    (spi : SPI_result) :
  (∀ junk (exclude : NullableDatum string),
     sql_max_hosts manage_count_hosts_max spi (null_arg junk) exclude
     = Returns (DatumInt32 0))
  ∧ (∀ hosts junk : string,
       sql_max_hosts manage_count_hosts_max spi (arg_of hosts) (null_arg junk)
       = sql_max_hosts manage_count_hosts_max spi (arg_of hosts) (arg_of "")).
Proof. split; reflexivity. Qed.

(** What the callback returns on present arguments. *)
Lemma sql_max_hosts_present
    (manage_count_hosts_max : string -> string -> Z -> outcome Z)
    (spi : SPI_result) (hosts exclude : string) :
  sql_max_hosts manage_count_hosts_max spi (arg_of hosts) (arg_of exclude)
  = bind (manage_count_hosts_max hosts exclude (get_max_hosts spi))
         PG_RETURN_INT32.
Proof.
  unfold sql_max_hosts, arg_of. cbn [isnull value].
  by rewrite !textndup_whole.
Qed.

(** C2: for a cap that is not negative and expressions that parse, the
    count is the smaller of the cap and the true number of distinct hosts
    of the expression outside the exclude list, through the callback as
    well, where the cap is the one read from the settings; and for all
    texts the count does not decrease when the cap grows and never exceeds
    the cap. *)
Theorem sql_max_hosts_capped_count
    (parse : string -> option (list HostAtom)) (hosts exclude : string) :
  (∀ max_hosts atoms excluded,
     0 <= max_hosts ->
     parse hosts = Some atoms ->
     parse exclude = Some excluded ->
     manage_count_hosts_max parse hosts exclude max_hosts
     = Returns (Z.min max_hosts (distinct_count atoms excluded)))
  ∧ (∀ spi atoms excluded,
       0 <= get_max_hosts spi ->
       parse hosts = Some atoms ->
       parse exclude = Some excluded ->
       sql_max_hosts (manage_count_hosts_max parse) spi
         (arg_of hosts) (arg_of exclude)
       = Returns (DatumInt32 (Z.min (get_max_hosts spi)
                                    (distinct_count atoms excluded))))
  ∧ (∀ cap1 cap2,
       0 <= cap1 -> cap1 <= cap2 ->
       ∃ n1 n2,
         manage_count_hosts_max parse hosts exclude cap1 = Returns n1
         ∧ manage_count_hosts_max parse hosts exclude cap2 = Returns n2
         ∧ n1 <= n2 ∧ 0 <= n1 <= cap1).
Proof.
  assert (∀ max_hosts atoms excluded,
            0 <= max_hosts ->
            parse hosts = Some atoms ->
            parse exclude = Some excluded ->
            manage_count_hosts_max parse hosts exclude max_hosts
            = Returns (Z.min max_hosts (distinct_count atoms excluded)))
    as Hmin.
  { intros max_hosts atoms excluded Hcap Hatoms Hexcluded.
    unfold manage_count_hosts_max.
    rewrite (proj2 (Z.ltb_ge _ _) Hcap), Hatoms, Hexcluded.
    by rewrite count_hosts_min. }
  split; [done|split].
  - intros spi atoms excluded Hcap Hatoms Hexcluded.
    rewrite sql_max_hosts_present, (Hmin _ _ _ Hcap Hatoms Hexcluded).
    reflexivity.
  - intros cap1 cap2 Hcap1 Hle.
    destruct (parse hosts) as [atoms|] eqn:Hatoms;
      [destruct (parse exclude) as [excluded|] eqn:Hexcluded|].
    + exists (Z.min cap1 (distinct_count atoms excluded)),
             (Z.min cap2 (distinct_count atoms excluded)).
      rewrite (Hmin cap1 atoms excluded), (Hmin cap2 atoms excluded)
        by (done || lia).
      assert (0 <= distinct_count atoms excluded)
        by (unfold distinct_count; lia).
      repeat split; lia.
    + exists 0, 0. unfold manage_count_hosts_max.
      rewrite !(proj2 (Z.ltb_ge _ _)) by lia.
      rewrite Hatoms, Hexcluded. repeat split; lia.
    + exists 0, 0. unfold manage_count_hosts_max.
      rewrite !(proj2 (Z.ltb_ge _ _)) by lia.
      rewrite Hatoms. repeat split; lia.
Qed.

Lemma sql_max_hosts_capped_count_witness :
  0 <= 100
  ∧ parse_hosts "10.0.0.1-10.0.0.5,10.0.0.3"
    = Some [AtomRange 167772161 167772165; AtomAddress 167772163]
  ∧ parse_hosts "" = Some []
  ∧ manage_count_hosts_max parse_hosts "10.0.0.1-10.0.0.5,10.0.0.3" "" 100
    = Returns
        (Z.min 100
           (distinct_count
              [AtomRange 167772161 167772165; AtomAddress 167772163] [])).
Proof.
  split; [lia|]. split; [reflexivity|]. split; [reflexivity|].
  apply (proj1 (sql_max_hosts_capped_count parse_hosts
                  "10.0.0.1-10.0.0.5,10.0.0.3" ""));
    [lia|reflexivity|reflexivity].
Defined.

(** The scenarios of the specification on the model: the overlapping
    singleton is counted once, a host in both lists is left out, an
    expression excluded by itself counts nothing, and the widest block
    stops at the cap. *)
Example count_overlapping_singleton :
  manage_count_hosts_max parse_hosts "10.0.0.1-10.0.0.5,10.0.0.3" "" 100
  = Returns 5.
Proof. vm_compute. reflexivity. Qed.

Example count_with_exclusion :
  manage_count_hosts_max parse_hosts "10.0.0.1-10.0.0.5, 10.0.0.3"
    "10.0.0.4/31" 100
  = Returns 3.
Proof. vm_compute. reflexivity. Qed.

Example count_self_excluded :
  manage_count_hosts_max parse_hosts "10.0.0.0/30,www.example.com"
    "10.0.0.0/30,www.example.com" 100
  = Returns 0.
Proof. vm_compute. reflexivity. Qed.

Example count_widest_block_capped :
  manage_count_hosts_max parse_hosts "0.0.0.0/0" "" 64 = Returns 64.
Proof. vm_compute. reflexivity. Qed.

Example count_negative_cap_fails :
  manage_count_hosts_max parse_hosts "10.0.0.1" "" (-1) = Raises.
Proof. reflexivity. Qed.

(** ** The next occurrence callback *)

Section NextTime.

Variable icalendar_next_time_from_string :
  string -> option string -> Z -> outcome Z.

Abbreviation next_time := (sql_next_time_ical icalendar_next_time_from_string).

(** With a recurrence text present, the callback is the scheduler on
    the text, the zone and the low 32 bits of the third slot, its result
    converted to [int32]. *)
Lemma sql_next_time_ical_present nargs ical arg1 arg2 :
  1 <= nargs ->
  next_time nargs (arg_of ical) arg1 arg2
  = bind (icalendar_next_time_from_string ical (zone_of nargs arg1)
            (DatumGetInt32 (value arg2)))
         (fun t => Returns (DatumInt32 (sint32 t))).
Proof.
  intros Hn. unfold sql_next_time_ical, zone_of, arg_of.
  cbn [isnull value]. rewrite (proj2 (Z.ltb_ge _ _) Hn). cbn [orb].
  rewrite textndup_whole.
  by destruct ((nargs <? 2) || isnull arg1); rewrite ?textndup_whole.
Qed.

End NextTime.

(** C7: a null or absent recurrence text gives the SQL null and the call
    returns, whatever the scheduler would do; with a text present,
    whenever the scheduler returns, the callback returns a 32-bit integer
    (the instant, or the scheduler's own mark for none). *)
Theorem sql_next_time_ical_null_or_instant
    (icalendar_next_time_from_string :
       string -> option string -> Z -> outcome Z) :
  (∀ nargs junk arg1 arg2,
     sql_next_time_ical icalendar_next_time_from_string nargs
       (null_arg junk) arg1 arg2
     = Returns DatumNull)
  ∧ (∀ nargs arg0 arg1 arg2,
       nargs < 1 ->
       sql_next_time_ical icalendar_next_time_from_string nargs
         arg0 arg1 arg2
       = Returns DatumNull)
  ∧ (∀ nargs ical arg1 arg2 t,
       1 <= nargs ->
       icalendar_next_time_from_string ical (zone_of nargs arg1)
         (DatumGetInt32 (value arg2)) = Returns t ->
       ∃ i, sql_next_time_ical icalendar_next_time_from_string nargs
              (arg_of ical) arg1 arg2
            = Returns (DatumInt32 i)
            ∧ in_int32 i).
Proof.
  split; [|split].
  - intros nargs junk arg1 arg2. unfold sql_next_time_ical.
    cbn [null_arg isnull]. by rewrite orb_true_r.
  - intros nargs arg0 arg1 arg2 Hn. unfold sql_next_time_ical.
    by rewrite (proj2 (Z.ltb_lt _ _) Hn).
  - intros nargs ical arg1 arg2 t Hn Ht. exists (sint32 t).
    rewrite sql_next_time_ical_present, Ht by done.
    split; [reflexivity|apply sint32_in_range].
Qed.

Lemma sql_next_time_ical_null_or_instant_witness :
  0 < 1
  ∧ sql_next_time_ical (fun _ _ _ => Raises) 0
      (arg_of "DTSTART:20200101T000000Z") (arg_of "UTC") (arg_of 0)
    = Returns DatumNull.
Proof.
  split; [lia|].
  apply (proj1 (proj2 (sql_next_time_ical_null_or_instant
                         (fun _ _ _ => Raises)))).
  lia.
Defined.

(** C10: the scheduler's instant is handed back as [int32].  It is
    reduced modulo 2^32 into the signed range, so an instant outside that
    range comes back as a different number. *)
Theorem sql_next_time_ical_truncates
    (icalendar_next_time_from_string :
       string -> option string -> Z -> outcome Z)
    nargs ical arg1 arg2 t :
  1 <= nargs ->
  icalendar_next_time_from_string ical (zone_of nargs arg1)
    (DatumGetInt32 (value arg2)) = Returns t ->
  sql_next_time_ical icalendar_next_time_from_string nargs
    (arg_of ical) arg1 arg2
  = Returns (DatumInt32 (sint32 t))
  ∧ in_int32 (sint32 t)
  ∧ (sint32 t - t) mod 2 ^ 32 = 0
  ∧ (¬ in_int32 t -> sint32 t ≠ t).
Proof.
  intros Hn Ht. rewrite sql_next_time_ical_present, Ht by done.
  split; [reflexivity|]. split; [apply sint32_in_range|].
  split; [apply sint32_congruent|].
  intros Hout Heq. apply Hout. rewrite <- Heq. apply sint32_in_range.
Qed.

Lemma sql_next_time_ical_truncates_witness :
  1 <= 3
  ∧ sql_next_time_ical (fun _ _ _ => Returns (2 ^ 31)) 3
      (arg_of "DTSTART:20380119T031408Z") (arg_of "UTC") (arg_of 0)
    = Returns (DatumInt32 (sint32 (2 ^ 31)))
  ∧ sint32 (2 ^ 31) = - 2 ^ 31.
Proof.
  split; [lia|]. split; [|reflexivity].
  apply (sql_next_time_ical_truncates (fun _ _ _ => Returns (2 ^ 31)) 3
           "DTSTART:20380119T031408Z" (arg_of "UTC") (arg_of 0) (2 ^ 31));
    [lia|reflexivity].
Defined.

(** C4: the third slot is read whatever its null flag and the number of
    arguments say.  A null or omitted offset whose slot holds [slot]
    behaves as the explicit offset [slot], not as 0: a scheduler that
    reports the offset it is given then reports 7 for a null third
    argument whose slot holds 7. *)
Theorem sql_next_time_ical_offset_unguarded
    (icalendar_next_time_from_string :
       string -> option string -> Z -> outcome Z)
    (ical : string) (arg1 : NullableDatum string) (slot : Z) :
  sql_next_time_ical icalendar_next_time_from_string 3
    (arg_of ical) arg1 (null_arg slot)
  = sql_next_time_ical icalendar_next_time_from_string 3
      (arg_of ical) arg1 (arg_of slot)
  ∧ sql_next_time_ical icalendar_next_time_from_string 2
      (arg_of ical) arg1 (null_arg slot)
    = sql_next_time_ical icalendar_next_time_from_string 3
        (arg_of ical) arg1 (arg_of slot)
  ∧ sql_next_time_ical (fun _ _ offset => Returns offset) 3
      (arg_of ical) arg1 (null_arg 7)
    = Returns (DatumInt32 7)
  ∧ sql_next_time_ical (fun _ _ offset => Returns offset) 3
      (arg_of ical) arg1 (arg_of 0)
    = Returns (DatumInt32 0).
Proof.
  rewrite !sql_next_time_ical_present by lia.
  repeat split; reflexivity.
Qed.


(** * Further properties of the helpers and callbacks *)

(** ** textndup *)

(** X1: a copy of [n] bytes is the prefix of that length: it is followed in
    the text by the rest, and it has [n] bytes when the text has as many. *)
Theorem textndup_prefix (t : string) (n : nat) :
  (n <= text_size t)%nat ->
  String.length (textndup t n) = n
  ∧ String.append (textndup t n) (String.substring n (text_size t - n) t) = t.
Proof.
  revert n. induction t as [|c t IH]; intros [|n] Hn.
  - done.
  - cbn in Hn. lia.
  - split; [done|].
    change (String.substring 0 (text_size (String c t)) (String c t)
            = String c t).
    apply (textndup_whole (String c t)).
  - destruct (IH n) as [Hlen Hrest]; [cbn in Hn; unfold text_size; lia|].
    unfold textndup, text_size in *. cbn. split; [by rewrite Hlen|].
    change (String c (String.substring 0 n t
                      +:+ String.substring n (String.length t - n) t)
            = String c t).
    by rewrite Hrest.
Qed.

Lemma textndup_prefix_witness :
  (4 <= text_size "10.0.0.1/24")%nat
  ∧ String.length (textndup "10.0.0.1/24" 4) = 4%nat
  ∧ textndup "10.0.0.1/24" 4 = "10.0".
Proof.
  split; [cbn; lia|]. split; [|reflexivity].
  refine (proj1 (textndup_prefix "10.0.0.1/24" 4 _)). cbn. lia.
Defined.

(** ** atoi on decimal renderings *)

Lemma skip_space_blank ws s :
  all_blank ws = true -> skip_space (ws +:+ s) = skip_space s.
Proof.
  unfold all_blank. induction ws as [|c ws IH]; [done|].
  cbn [list_ascii_of_string forallb]. intros [Hc Hws]%andb_true_iff.
  change (String c ws +:+ s) with (String c (ws +:+ s)).
  cbn [skip_space]. rewrite Hc. by apply IH.
Qed.

Lemma pretty_N_go_append x s rest :
  pretty_N_go x s +:+ rest = pretty_N_go x (s +:+ rest).
Proof.
  revert s. induction (N.lt_wf_0 x) as [x _ IH]; intros s.
  destruct (decide (x = 0%N)) as [->|Hx]; [done|].
  rewrite (pretty_N_go_step x s), (pretty_N_go_step x (s +:+ rest)) by lia.
  by rewrite IH by (apply N.div_lt; lia).
Qed.

Lemma digits_value_no_leading s acc :
  leading_digit s = false -> digits_value s acc = acc.
Proof.
  destruct s as [|c s]; [done|]. unfold leading_digit, is_digit.
  cbn [digits_value]. by destruct (digit_of c).
Qed.

(** [strtol] on a decimal rendering, blanks before it and text without a
    leading digit after it. *)
Lemma strtol10_pretty ws n rest :
  all_blank ws = true -> leading_digit rest = false ->
  strtol10 (ws +:+ pretty n +:+ rest) = clamp_long n.
Proof.
  intros Hws Hrest.
  assert (strtol10 (ws +:+ pretty n +:+ rest) = strtol10 (pretty n +:+ rest))
    as -> by (unfold strtol10; by rewrite skip_space_blank).
  unfold clamp_long, LONG_MIN, LONG_MAX.
  destruct n as [|p|p].
  - change (pretty 0 +:+ rest) with (String "0" rest).
    rewrite strtol10_digit by done.
    change (digits_value (String "0" rest) 0) with (digits_value rest 0).
    rewrite digits_value_no_leading by done. unfold LONG_MAX. lia.
  - change (pretty (Z.pos p)) with (pretty_N_go (N.pos p) "").
    rewrite pretty_N_go_append. change ("" +:+ rest) with rest.
    destruct (pretty_N_go_head (N.pos p) rest) as (c & s' & Hs & Hc); [lia|].
    rewrite Hs, strtol10_digit, <- Hs, digits_value_pretty_N_go by done.
    rewrite digits_value_no_leading by done.
    change (Z.of_N (N.pos p)) with (Z.pos p). unfold LONG_MAX. lia.
  - change (pretty (Z.neg p) +:+ rest)
      with (String "-" (pretty_N_go (N.pos p) "" +:+ rest)).
    rewrite pretty_N_go_append. change ("" +:+ rest) with rest.
    change (strtol10 (String "-" (pretty_N_go (N.pos p) rest)))
      with (Z.max LONG_MIN (- digits_value (pretty_N_go (N.pos p) rest) 0)).
    rewrite digits_value_pretty_N_go, digits_value_no_leading by done.
    change (Z.of_N (N.pos p)) with (Z.pos p). unfold LONG_MIN. lia.
Qed.

(** ** get_max_hosts *)

Lemma get_max_hosts_stored (meta : gmap string (option string)) v :
  meta !! "max_hosts" = Some (Some v) ->
  get_max_hosts (SPI_exec_max_hosts meta) = atoi v.
Proof.
  intros Hv. unfold get_max_hosts, SPI_exec_max_hosts.
  cbn [SPI_processed SPI_ret SPI_tuptable]. by rewrite Hv.
Qed.

(** X2: whenever the query fails, gives no row, leaves no table or leaves a
    null cell, the cap is the built-in 4095. *)
Theorem get_max_hosts_falls_back (spi : SPI_result) :
  SPI_ret spi <= 0
  ∨ SPI_processed spi <= 0
  ∨ SPI_tuptable spi = None
  ∨ (∃ rows, SPI_tuptable spi = Some rows ∧ SPI_getvalue rows 0 1 = None) ->
  get_max_hosts spi = 4095.
Proof.
  unfold get_max_hosts. intros [Hret|[Hproc|[Htable|(rows & Htable & Hcell)]]].
  - rewrite (proj2 (Z.ltb_ge 0 (SPI_ret spi))) by done.
    by rewrite andb_false_r.
  - by rewrite (proj2 (Z.ltb_ge 0 (SPI_processed spi))) by done.
  - rewrite Htable. by destruct (_ && _).
  - rewrite Htable, Hcell. by destruct (_ && _).
Qed.

Lemma get_max_hosts_falls_back_witness :
  -1 <= 0
  ∧ get_max_hosts (mkSPI (-1) 1 (Some [[Some "17"]])) = 4095.
Proof.
  split; [lia|].
  apply (get_max_hosts_falls_back (mkSPI (-1) 1 (Some [[Some "17"]]))).
  left. cbn. lia.
Defined.

(** X3: the stored text is not validated: blanks before the number and any
    text after it that does not start with a digit are ignored, and the
    number is taken as it stands, zero and negative numbers included. *)
Theorem get_max_hosts_reads_leading_number
    (meta : gmap string (option string)) (ws rest : string) (n : Z) :
  meta !! "max_hosts" = Some (Some (ws +:+ pretty n +:+ rest)) ->
  all_blank ws = true ->
  leading_digit rest = false ->
  in_int32 n ->
  get_max_hosts (SPI_exec_max_hosts meta) = n.
Proof.
  intros Hv Hws Hrest Hn. rewrite (get_max_hosts_stored _ _ Hv).
  unfold atoi. rewrite strtol10_pretty by done.
  unfold in_int32, INT_MIN, INT_MAX in Hn.
  unfold clamp_long, LONG_MIN, LONG_MAX.
  rewrite Z.min_r, Z.max_r by lia.
  apply sint32_id. unfold in_int32, INT_MIN, INT_MAX. lia.
Qed.

Lemma get_max_hosts_reads_leading_number_witness :
  ({[ "max_hosts" := Some "  -20 hosts" ]} : gmap string (option string))
    !! "max_hosts" = Some (Some ("  " +:+ pretty (-20) +:+ " hosts"))
  ∧ all_blank "  " = true
  ∧ leading_digit " hosts" = false
  ∧ in_int32 (-20)
  ∧ get_max_hosts (SPI_exec_max_hosts {[ "max_hosts" := Some "  -20 hosts" ]})
    = -20.
Proof.
  split; [reflexivity|]. split; [reflexivity|]. split; [reflexivity|].
  split; [unfold in_int32, INT_MIN, INT_MAX; lia|].
  apply (get_max_hosts_reads_leading_number
           {[ "max_hosts" := Some "  -20 hosts" ]} "  " " hosts" (-20));
    [reflexivity|reflexivity|reflexivity|].
  unfold in_int32, INT_MIN, INT_MAX. lia.
Defined.

(** X4: a stored number outside the range of [int] does not fail: it is
    brought into the range of [long] and then reduced modulo 2^32, so the
    cap differs from the stored number. *)
Theorem get_max_hosts_wraps_large_numbers
    (meta : gmap string (option string)) (n : Z) :
  meta !! "max_hosts" = Some (Some (pretty n)) ->
  get_max_hosts (SPI_exec_max_hosts meta) = sint32 (clamp_long n)
  ∧ in_int32 (get_max_hosts (SPI_exec_max_hosts meta))
  ∧ (¬ in_int32 n -> get_max_hosts (SPI_exec_max_hosts meta) ≠ n).
Proof.
  intros Hv. rewrite (get_max_hosts_stored _ _ Hv). unfold atoi.
  assert (strtol10 (pretty n) = clamp_long n) as ->.
  { rewrite <- (strtol10_pretty "" n "") by done.
    change ("" +:+ pretty n +:+ "") with (pretty n +:+ "").
    f_equal. clear Hv. induction (pretty n) as [|c s IH]; [done|].
    change (String c s +:+ "") with (String c (s +:+ "")).
    by rewrite <- IH. }
  split; [done|]. split; [apply sint32_in_range|].
  intros Hout Heq. apply Hout. rewrite <- Heq. apply sint32_in_range.
Qed.

Lemma get_max_hosts_wraps_large_numbers_witness :
  ({[ "max_hosts" := Some "4294967296" ]} : gmap string (option string))
    !! "max_hosts" = Some (Some (pretty 4294967296))
  ∧ get_max_hosts (SPI_exec_max_hosts {[ "max_hosts" := Some "4294967296" ]})
    = sint32 (clamp_long 4294967296)
  ∧ sint32 (clamp_long 4294967296) = 0.
Proof.
  split; [reflexivity|]. split; [|reflexivity].
  refine (proj1 (get_max_hosts_wraps_large_numbers
                   {[ "max_hosts" := Some "4294967296" ]} 4294967296 _)).
  reflexivity.
Defined.

(** ** The callbacks on present arguments *)

(** X5: with both arguments present, [sql_hosts_contains] hands the two texts
    unchanged and the cap of the settings to [hosts_str_contains]; the
    result is true exactly when that returns a number other than 0,
    negative numbers included. *)
Theorem sql_hosts_contains_follows_callee
    (hosts_str_contains : string -> string -> Z -> outcome Z)
    (spi : SPI_result) (hosts find_host : string) :
  sql_hosts_contains hosts_str_contains spi (arg_of hosts) (arg_of find_host)
  = bind (hosts_str_contains hosts find_host (get_max_hosts spi))
         (fun r => Returns (DatumBool (negb (r =? 0)))).
Proof.
  unfold sql_hosts_contains, arg_of. cbn [isnull value orb].
  rewrite !textndup_whole.
  destruct (hosts_str_contains hosts find_host (get_max_hosts spi)) as [r|];
    [|done].
  cbn [bind]. by destruct (Z.eqb_spec r 0).
Qed.

(** X6: when the settings hold no value for max_hosts, [sql_max_hosts] asks
    for the count under the cap 4095, with the empty exclude text for a
    null second argument, and hands the count back as it is. *)
Theorem sql_max_hosts_default_cap
    (manage_count_hosts_max : string -> string -> Z -> outcome Z)
    (meta : gmap string (option string))
    (hosts : string) (arg1 : NullableDatum string) :
  mjoin (meta !! "max_hosts") = None ->
  sql_max_hosts manage_count_hosts_max (SPI_exec_max_hosts meta)
    (arg_of hosts) arg1
  = bind (manage_count_hosts_max hosts
            (if isnull arg1 then "" else value arg1) 4095)
         (fun n => Returns (DatumInt32 n)).
Proof.
  intros Habsent. unfold sql_max_hosts, arg_of. cbn [isnull value].
  rewrite !textndup_whole.
  assert (get_max_hosts (SPI_exec_max_hosts meta) = 4095) as ->.
  { unfold get_max_hosts, SPI_exec_max_hosts.
    cbn [SPI_processed SPI_ret SPI_tuptable]. by rewrite Habsent. }
  reflexivity.
Qed.

Lemma sql_max_hosts_default_cap_witness :
  mjoin ((∅ : gmap string (option string)) !! "max_hosts") = None
  ∧ sql_max_hosts (fun _ _ cap => Returns (cap - 5000)) (SPI_exec_max_hosts ∅)
      (arg_of "10.0.0.1") (null_arg "junk")
    = Returns (DatumInt32 (-905)).
Proof.
  split; [reflexivity|].
  apply (sql_max_hosts_default_cap (fun _ _ cap => Returns (cap - 5000)) ∅
           "10.0.0.1" (null_arg "junk")).
  reflexivity.
Defined.

(** X7: an error of a function of manage_utils is not caught: with its
    arguments present, each of the three callbacks that call one raises
    when the function raises. *)
Theorem callbacks_propagate_errors
    (hosts_str_contains manage_count_hosts_max :
       string -> string -> Z -> outcome Z)
    (icalendar_next_time_from_string :
       string -> option string -> Z -> outcome Z)
    (spi : SPI_result) :
  (∀ hosts find_host,
     hosts_str_contains hosts find_host (get_max_hosts spi) = Raises ->
     sql_hosts_contains hosts_str_contains spi
       (arg_of hosts) (arg_of find_host) = Raises)
  ∧ (∀ hosts exclude,
       manage_count_hosts_max hosts exclude (get_max_hosts spi) = Raises ->
       sql_max_hosts manage_count_hosts_max spi
         (arg_of hosts) (arg_of exclude) = Raises)
  ∧ (∀ nargs ical arg1 arg2,
       1 <= nargs ->
       icalendar_next_time_from_string ical (zone_of nargs arg1)
         (DatumGetInt32 (value arg2)) = Raises ->
       sql_next_time_ical icalendar_next_time_from_string nargs
         (arg_of ical) arg1 arg2 = Raises).
Proof.
  split; [|split].
  - intros hosts find_host Hraise.
    unfold sql_hosts_contains, arg_of. cbn [isnull value orb].
    by rewrite !textndup_whole, Hraise.
  - intros hosts exclude Hraise.
    by rewrite sql_max_hosts_present, Hraise.
  - intros nargs ical arg1 arg2 Hn Hraise.
    by rewrite sql_next_time_ical_present, Hraise.
Qed.

Lemma callbacks_propagate_errors_witness :
  (fun (_ _ : string) (cap : Z) => if cap <? 0 then Raises else Returns 1)
    "10.0.0.0/30" "10.0.0.2"
    (get_max_hosts (SPI_exec_max_hosts {[ "max_hosts" := Some "-1" ]}))
  = Raises
  ∧ sql_hosts_contains
      (fun _ _ cap => if cap <? 0 then Raises else Returns 1)
      (SPI_exec_max_hosts {[ "max_hosts" := Some "-1" ]})
      (arg_of "10.0.0.0/30") (arg_of "10.0.0.2")
    = Raises.
Proof.
  split; [reflexivity|].
  apply (proj1 (callbacks_propagate_errors
                  (fun _ _ cap => if cap <? 0 then Raises else Returns 1)
                  (fun _ _ _ => Returns 0) (fun _ _ _ => Returns 0)
                  (SPI_exec_max_hosts {[ "max_hosts" := Some "-1" ]}))).
  reflexivity.
Defined.

(** ** More on the next occurrence callback *)

Lemma sint32_periodic t k : sint32 (t + k * 2 ^ 32) = sint32 t.
Proof.
  unfold sint32.
  replace (t + k * 2 ^ 32 + 2 ^ 31) with (t + 2 ^ 31 + k * 2 ^ 32) by lia.
  by rewrite Z.mod_add by lia.
Qed.

(** X8: an instant within the range of [int32] is handed back as it is. *)
Theorem sql_next_time_ical_exact_in_range
    (icalendar_next_time_from_string :
       string -> option string -> Z -> outcome Z)
    nargs ical arg1 arg2 t :
  1 <= nargs ->
  icalendar_next_time_from_string ical (zone_of nargs arg1)
    (DatumGetInt32 (value arg2)) = Returns t ->
  in_int32 t ->
  sql_next_time_ical icalendar_next_time_from_string nargs
    (arg_of ical) arg1 arg2
  = Returns (DatumInt32 t).
Proof.
  intros Hn Ht Hrange. rewrite sql_next_time_ical_present, Ht by done.
  cbn [bind]. by rewrite sint32_id.
Qed.

Lemma sql_next_time_ical_exact_in_range_witness :
  1 <= 3
  ∧ in_int32 1600000000
  ∧ sql_next_time_ical (fun _ _ _ => Returns 1600000000) 3
      (arg_of "DTSTART:20200101T000000Z") (arg_of "UTC") (arg_of 0)
    = Returns (DatumInt32 1600000000).
Proof.
  split; [lia|]. split; [unfold in_int32, INT_MIN, INT_MAX; lia|].
  apply (sql_next_time_ical_exact_in_range
           (fun _ _ _ => Returns 1600000000) 3
           "DTSTART:20200101T000000Z" (arg_of "UTC") (arg_of 0) 1600000000);
    [lia|reflexivity|unfold in_int32, INT_MIN, INT_MAX; lia].
Defined.

(** X9: two instants that differ by a multiple of 2^32 seconds are handed
    back as the same number: the caller cannot tell them apart. *)
Theorem sql_next_time_ical_aliases
    (sched1 sched2 : string -> option string -> Z -> outcome Z)
    nargs ical arg1 arg2 t k :
  1 <= nargs ->
  sched1 ical (zone_of nargs arg1) (DatumGetInt32 (value arg2))
  = Returns t ->
  sched2 ical (zone_of nargs arg1) (DatumGetInt32 (value arg2))
  = Returns (t + k * 2 ^ 32) ->
  sql_next_time_ical sched1 nargs (arg_of ical) arg1 arg2
  = sql_next_time_ical sched2 nargs (arg_of ical) arg1 arg2.
Proof.
  intros Hn H1 H2. rewrite !sql_next_time_ical_present, H1, H2 by done.
  cbn [bind]. by rewrite sint32_periodic.
Qed.

Lemma sql_next_time_ical_aliases_witness :
  1 <= 3
  ∧ sql_next_time_ical (fun _ _ _ => Returns 86400) 3
      (arg_of "DTSTART:19700102T000000Z") (arg_of "UTC") (arg_of 0)
    = sql_next_time_ical (fun _ _ _ => Returns (86400 + 1 * 2 ^ 32)) 3
        (arg_of "DTSTART:19700102T000000Z") (arg_of "UTC") (arg_of 0).
Proof.
  split; [lia|].
  apply (sql_next_time_ical_aliases
           (fun _ _ _ => Returns 86400)
           (fun _ _ _ => Returns (86400 + 1 * 2 ^ 32)) 3
           "DTSTART:19700102T000000Z" (arg_of "UTC") (arg_of 0) 86400 1);
    [lia|reflexivity|reflexivity].
Defined.

(** X10: an offset given within the range of [int32] reaches the scheduler as
    it is; the time zone reaches it as the text of the second argument
    when that is given and not null, and as no zone otherwise, whatever
    the slot holds. *)
Theorem sql_next_time_ical_arguments
    (icalendar_next_time_from_string :
       string -> option string -> Z -> outcome Z)
    (ical : string) (offset : Z) :
  in_int32 offset ->
  (∀ nargs zone,
     2 <= nargs ->
     sql_next_time_ical icalendar_next_time_from_string nargs
       (arg_of ical) (arg_of zone) (arg_of offset)
     = bind (icalendar_next_time_from_string ical (Some zone) offset)
            (fun t => Returns (DatumInt32 (sint32 t))))
  ∧ (∀ nargs junk,
       1 <= nargs ->
       sql_next_time_ical icalendar_next_time_from_string nargs
         (arg_of ical) (null_arg junk) (arg_of offset)
       = bind (icalendar_next_time_from_string ical None offset)
              (fun t => Returns (DatumInt32 (sint32 t))))
  ∧ (∀ arg1,
       sql_next_time_ical icalendar_next_time_from_string 1
         (arg_of ical) arg1 (arg_of offset)
       = bind (icalendar_next_time_from_string ical None offset)
              (fun t => Returns (DatumInt32 (sint32 t)))).
Proof.
  intros Hoffset.
  assert (DatumGetInt32 offset = offset) as Hsame by by apply sint32_id.
  split; [|split].
  - intros nargs zone Hn. rewrite sql_next_time_ical_present by lia.
    unfold zone_of, arg_of. cbn [isnull value].
    by rewrite Hsame, (proj2 (Z.ltb_ge nargs 2)) by lia.
  - intros nargs junk Hn. rewrite sql_next_time_ical_present by lia.
    unfold zone_of, arg_of, null_arg. cbn [isnull value].
    by rewrite Hsame, orb_true_r.
  - intros arg1. rewrite sql_next_time_ical_present by lia.
    unfold zone_of, arg_of. cbn [isnull value]. by rewrite Hsame.
Qed.

Lemma sql_next_time_ical_arguments_witness :
  in_int32 2
  ∧ 2 <= 3
  ∧ sql_next_time_ical
      (fun _ zone offset =>
         Returns (match zone with Some _ => 100 + offset | None => offset end))
      3 (arg_of "DTSTART:20200101T000000Z") (arg_of "Europe/Berlin")
      (arg_of 2)
    = Returns (DatumInt32 102).
Proof.
  split; [unfold in_int32, INT_MIN, INT_MAX; lia|]. split; [lia|].
  refine (proj1 (sql_next_time_ical_arguments
                   (fun _ zone offset =>
                      Returns (match zone with
                               | Some _ => 100 + offset
                               | None => offset
                               end))
                   "DTSTART:20200101T000000Z" 2 _) 3 "Europe/Berlin" _).
  - unfold in_int32, INT_MIN, INT_MAX. lia.
  - lia.
Defined.

(** ** More on the severity predicate *)

Lemma is_nan_Prim2SF v : is_nan v = true -> Prim2SF v = S754_nan.
Proof.
  unfold is_nan. rewrite FloatAxioms.eqb_spec.
  destruct (Prim2SF v) as [s|s| |s m e]; [by destruct s..|done|].
  unfold SFeqb, SFcompare.
  rewrite Z.compare_refl, Pos.compare_cont_refl. by destruct s.
Qed.

(** X11: a value or a threshold that is not a number never matches. *)
Theorem severity_nan_never_matches (v t : float) :
  is_nan v = true ∨ is_nan t = true ->
  sql_severity_matches_ov (arg_of v) (arg_of t) = Returns (DatumBool false).
Proof.
  intros Hnan. unfold sql_severity_matches_ov, arg_of. cbn [isnull value].
  rewrite !PG_RETURN_BOOL_b2z.
  rewrite !FloatAxioms.leb_spec, FloatAxioms.eqb_spec.
  destruct Hnan as [Hv%is_nan_Prim2SF|Ht%is_nan_Prim2SF].
  - rewrite Hv. cbn. by destruct (Prim2SF t).
  - rewrite Ht.
    destruct (SFleb (Prim2SF v) (Prim2SF 0)); by destruct (Prim2SF v).
Qed.

Lemma severity_nan_never_matches_witness :
  (is_nan nan = true ∨ is_nan 7 = true)
  ∧ sql_severity_matches_ov (arg_of nan) (arg_of 7%float)
    = Returns (DatumBool false).
Proof.
  split; [left; reflexivity|].
  apply (severity_nan_never_matches nan 7). left. reflexivity.
Defined.

(** X12: every value that is a number matches itself as threshold. *)
Theorem severity_matches_itself (v : float) :
  is_nan v = false ->
  sql_severity_matches_ov (arg_of v) (arg_of v) = Returns (DatumBool true).
Proof.
  unfold is_nan. intros Hv%negb_false_iff.
  unfold sql_severity_matches_ov, arg_of. cbn [isnull value].
  rewrite !PG_RETURN_BOOL_b2z, Hv.
  destruct (PrimFloat.leb v 0); [done|].
  rewrite FloatAxioms.leb_spec. rewrite FloatAxioms.eqb_spec in Hv.
  unfold SFeqb in Hv. unfold SFleb.
  by destruct (SFcompare (Prim2SF v) (Prim2SF v)) as [[]|].
Qed.

Lemma severity_matches_itself_witness :
  is_nan (-3) = false
  ∧ sql_severity_matches_ov (arg_of (-3)%float) (arg_of (-3)%float)
    = Returns (DatumBool true).
Proof.
  split; [reflexivity|].
  apply (severity_matches_itself (-3)). reflexivity.
Defined.

(** X13: a value above 0 matches every threshold that is 0 or below. *)
Theorem severity_positive_matches_nonpositive (v t : float) :
  PrimFloat.ltb 0 v = true ->
  PrimFloat.leb t 0 = true ->
  sql_severity_matches_ov (arg_of v) (arg_of t) = Returns (DatumBool true).
Proof.
  unfold sql_severity_matches_ov, arg_of. cbn [isnull value].
  rewrite !PG_RETURN_BOOL_b2z.
  rewrite !FloatAxioms.leb_spec, FloatAxioms.ltb_spec, FloatAxioms.eqb_spec.
  change (Prim2SF 0) with (S754_zero false).
  destruct (Prim2SF v) as [sv|sv| |sv mv ev], (Prim2SF t) as [st|st| |st mt et];
    try destruct sv; try destruct st; cbn; intros Hv Ht;
    try discriminate; reflexivity.
Qed.

Lemma severity_positive_matches_nonpositive_witness :
  PrimFloat.ltb 0 2.5 = true
  ∧ PrimFloat.leb (-1) 0 = true
  ∧ sql_severity_matches_ov (arg_of 2.5%float) (arg_of (-1)%float)
    = Returns (DatumBool true).
Proof.
  split; [reflexivity|]. split; [reflexivity|].
  apply (severity_positive_matches_nonpositive 2.5 (-1)); reflexivity.
Defined.

(** Case analysis on the comparisons of exponents and mantissas inside a
    comparison of two floats. *)
Ltac compare_cases :=
  repeat match goal with
  | H : context [Z.compare ?a ?b] |- _ => destruct (Z.compare_spec a b)
  | |- context [Z.compare ?a ?b] => destruct (Z.compare_spec a b)
  | H : context [Pos.compare_cont Eq ?a ?b] |- _ =>
      change (Pos.compare_cont Eq a b) with (Pos.compare a b) in *;
      destruct (Pos.compare_spec a b)
  | |- context [Pos.compare_cont Eq ?a ?b] =>
      change (Pos.compare_cont Eq a b) with (Pos.compare a b) in *;
      destruct (Pos.compare_spec a b)
  end.

Lemma SFleb_trans a b c :
  SFleb a b = true -> SFleb b c = true -> SFleb a c = true.
Proof.
  unfold SFleb, SFcompare.
  destruct a as [sa|sa| |sa ma ea], b as [sb|sb| |sb mb eb],
           c as [sc|sc| |sc mc ec];
    try destruct sa; try destruct sb; try destruct sc;
    intros Hab Hbc; try discriminate; try reflexivity.
  all: compare_cases; subst; cbn in *;
    try discriminate; try reflexivity; try lia.
Qed.

Lemma SFpositive_leb a b :
  SFltb (S754_zero false) a = true -> SFleb a b = true ->
  SFltb (S754_zero false) b = true ∧ SFleb b (S754_zero false) = false.
Proof.
  unfold SFltb, SFleb, SFcompare.
  destruct a as [sa|sa| |sa ma ea], b as [sb|sb| |sb mb eb];
    try destruct sa; try destruct sb; intros Ha Hab;
    try discriminate; by split.
Qed.

(** X14: for a value above 0 a match is kept when the value grows and when
    the threshold drops. *)
Theorem severity_monotone_above_zero (v v' t t' : float) :
  PrimFloat.ltb 0 v = true ->
  PrimFloat.leb v v' = true ->
  PrimFloat.leb t' t = true ->
  sql_severity_matches_ov (arg_of v) (arg_of t) = Returns (DatumBool true) ->
  sql_severity_matches_ov (arg_of v') (arg_of t') = Returns (DatumBool true).
Proof.
  unfold sql_severity_matches_ov, arg_of. cbn [isnull value].
  rewrite !PG_RETURN_BOOL_b2z.
  rewrite !FloatAxioms.leb_spec, FloatAxioms.ltb_spec, !FloatAxioms.eqb_spec.
  change (Prim2SF 0) with (S754_zero false).
  intros Hv Hvv' Ht't.
  destruct (SFpositive_leb _ _ Hv Hvv') as [_ ->].
  assert (SFleb (Prim2SF v) (S754_zero false) = false) as ->.
  { unfold SFltb, SFleb, SFcompare in *.
    destruct (Prim2SF v) as [sv|sv| |sv mv ev]; try destruct sv;
      try discriminate; reflexivity. }
  intros [= Htv]. do 2 f_equal.
  eapply SFleb_trans; [exact Ht't|]. by eapply SFleb_trans.
Qed.

Lemma severity_monotone_above_zero_witness :
  PrimFloat.ltb 0 5 = true
  ∧ PrimFloat.leb 5 7.5 = true
  ∧ PrimFloat.leb 2 4 = true
  ∧ sql_severity_matches_ov (arg_of 5%float) (arg_of 4%float)
    = Returns (DatumBool true)
  ∧ sql_severity_matches_ov (arg_of 7.5%float) (arg_of 2%float)
    = Returns (DatumBool true).
Proof.
  split; [reflexivity|]. split; [reflexivity|]. split; [reflexivity|].
  split; [reflexivity|].
  apply (severity_monotone_above_zero 5 7.5 4 2); reflexivity.
Defined.
